(** * rclcpp_lifecycle: the templated members of [LifecycleNode]

    A shallow embedding of
    [rclcpp_lifecycle/include/rclcpp_lifecycle/lifecycle_node_impl.hpp]:
    the entity factories ([create_publisher], [create_subscription],
    [create_wall_timer], ...) and the typed parameter members
    ([declare_parameter], [declare_parameters], [get_parameter],
    [get_parameters], [get_parameter_or]).

    C++ exceptions are an error result, member state is passed explicitly,
    and an argument taken by non-const reference is the state of the
    computation that writes to it, so that what was written before a throw
    stays visible to the caller. *)

From stdpp Require Import base tactics option list strings gmap sorting.
From Stdlib Require Import ZArith.

Local Open Scope Z_scope.

(** ** Exceptions and the state-and-exception monad *)

(** The error kinds a call can end with (section 7 of the specification). *)
Inductive exception : Type :=
  | ParameterAlreadyDeclaredError
  | ParameterTypeMismatchError
  | ParameterUninitializedError
  | EntityCreationError.

#[global] Instance exception_eq_dec : EqDecision exception.
Proof. solve_decision. Defined.

(** A C++ call on a mutable object of type [S]: it leaves the object in a
    new state and either throws or returns an [A]. *)
Definition M (S A : Type) : Type := S -> S * (exception + A).

Definition ret {S A} (a : A) : M S A := fun s => (s, inr a).

Definition throw {S A} (e : exception) : M S A := fun s => (s, inl e).

Definition bind {S A B} (m : M S A) (k : A -> M S B) : M S B :=
  fun s =>
    match m s with
    | (s', inl e) => (s', inl e)
    | (s', inr a) => k a s'
    end.

Notation "x <- m ;; k" := (bind m (fun x => k))
  (at level 100, m at next level, right associativity).

(** A call on a member object: [m] runs on the part [proj s] of the state and
    [upd] stores the part back. *)
Definition on_member {S P A} (proj : S -> P) (upd : P -> S -> S)
    (m : M P A) : M S A :=
  fun s => let (p', r) := m (proj s) in (upd p' s, r).

(** [std::transform] over a sequence with a callback that may throw: the
    elements are visited in order and the first exception ends the walk. *)
Fixpoint transform {S A B} (f : A -> M S B) (l : list A) : M S (list B) :=
  match l with
  | [] => ret []
  | a :: l' => b <- f a ;; bs <- transform f l' ;; ret (b :: bs)
  end.

(** ** [std::map<std::string, V>] *)

(** A [std::map] keyed by strings is a finite map; its iterators visit the
    entries in ascending key order. *)
Definition key_le {V} (e1 e2 : string * V) : Prop := String.le e1.1 e2.1.

#[global] Instance key_le_dec {V} : RelDecision (@key_le V).
Proof. intros e1 e2. unfold key_le. apply _. Defined.

#[global] Instance key_le_total {V} : Total (@key_le V).
Proof. intros e1 e2. unfold key_le. apply (total String.le). Qed.

#[global] Instance key_le_trans {V} : Transitive (@key_le V).
Proof. intros e1 e2 e3. unfold key_le. apply transitivity. Qed.

Definition entries {V} (m : gmap string V) : list (string * V) :=
  merge_sort key_le (map_to_list m).

(** ** Parameter values *)

(** [rclcpp::ParameterType], the runtime type tag. *)
Inductive ParameterType : Type :=
  | PARAMETER_NOT_SET
  | PARAMETER_BOOL
  | PARAMETER_INTEGER
  | PARAMETER_DOUBLE
  | PARAMETER_STRING
  | PARAMETER_BYTE_ARRAY
  | PARAMETER_BOOL_ARRAY
  | PARAMETER_INTEGER_ARRAY
  | PARAMETER_DOUBLE_ARRAY
  | PARAMETER_STRING_ARRAY.

#[global] Instance ParameterType_eq_dec : EqDecision ParameterType.
Proof. solve_decision. Defined.

(** Modelled from the spec: [rclcpp::ParameterValue] (rclcpp/parameter_value.hpp
    is not part of the sources at hand), "an explicit runtime type tag
    carried on the generic value" (section 9).  Integers are [int64_t]
    values; a double is carried as its 64-bit pattern, a byte as its value. *)
Inductive ParameterValue : Type :=
  | NotSet
  | BoolValue (b : bool)
  | IntegerValue (i : Z)
  | DoubleValue (bits : Z)
  | StringValue (s : string)
  | ByteArrayValue (bs : list Z)
  | BoolArrayValue (bs : list bool)
  | IntegerArrayValue (ints : list Z)
  | DoubleArrayValue (bits : list Z)
  | StringArrayValue (ss : list string).

#[global] Instance ParameterValue_eq_dec : EqDecision ParameterValue.
Proof. solve_decision. Defined.

(** [ParameterValue::get_type()]. *)
Definition get_type (v : ParameterValue) : ParameterType :=
  match v with
  | NotSet => PARAMETER_NOT_SET
  | BoolValue _ => PARAMETER_BOOL
  | IntegerValue _ => PARAMETER_INTEGER
  | DoubleValue _ => PARAMETER_DOUBLE
  | StringValue _ => PARAMETER_STRING
  | ByteArrayValue _ => PARAMETER_BYTE_ARRAY
  | BoolArrayValue _ => PARAMETER_BOOL_ARRAY
  | IntegerArrayValue _ => PARAMETER_INTEGER_ARRAY
  | DoubleArrayValue _ => PARAMETER_DOUBLE_ARRAY
  | StringArrayValue _ => PARAMETER_STRING_ARRAY
  end.

(** Modelled from the spec: the C++ types a parameter template can be
    instantiated at (the constructors and [get<T>()] of
    rclcpp/parameter_value.hpp are not part of the sources at hand).
    [value_init] is [ParameterT{}], [to_value x] is
    [rclcpp::ParameterValue(x)] and [get_as v] is [v.get<ParameterT>()], the
    "checked conversion that fails ... on mismatch" of section 9: [None]
    stands for the throw. *)
Class ParameterT (T : Type) : Type := {
  value_init : T;
  to_value : T -> ParameterValue;
  get_as : ParameterValue -> option T;
  param_type : ParameterType;
  get_as_to_value : forall x, get_as (to_value x) = Some x;
  get_as_Some : forall v x, get_as v = Some x -> v = to_value x;
  get_type_to_value : forall x, get_type (to_value x) = param_type
}.

#[global, refine] Instance bool_ParameterT : ParameterT bool := {|
  value_init := false;
  to_value := BoolValue;
  get_as v := match v with BoolValue b => Some b | _ => None end;
  param_type := PARAMETER_BOOL
|}.
Proof. all: try done. by intros [] x [= ->]. Defined.

#[global, refine] Instance int64_ParameterT : ParameterT Z := {|
  value_init := 0;
  to_value := IntegerValue;
  get_as v := match v with IntegerValue i => Some i | _ => None end;
  param_type := PARAMETER_INTEGER
|}.
Proof. all: try done. by intros [] x [= ->]. Defined.

#[global, refine] Instance string_ParameterT : ParameterT string := {|
  value_init := "";
  to_value := StringValue;
  get_as v := match v with StringValue s => Some s | _ => None end;
  param_type := PARAMETER_STRING
|}.
Proof. all: try done. by intros [] x [= ->]. Defined.

#[global, refine] Instance bool_array_ParameterT : ParameterT (list bool) := {|
  value_init := [];
  to_value := BoolArrayValue;
  get_as v := match v with BoolArrayValue b => Some b | _ => None end;
  param_type := PARAMETER_BOOL_ARRAY
|}.
Proof. all: try done. by intros [] x [= ->]. Defined.

#[global, refine] Instance string_array_ParameterT : ParameterT (list string) := {|
  value_init := [];
  to_value := StringArrayValue;
  get_as v := match v with StringArrayValue b => Some b | _ => None end;
  param_type := PARAMETER_STRING_ARRAY
|}.
Proof. all: try done. by intros [] x [= ->]. Defined.

(** [v.get<ParameterT>()] as an expression that may throw: a mismatch is the
    [ParameterTypeMismatchError] of the specification. *)
Definition get {T} `{ParameterT T} (v : ParameterValue) : exception + T :=
  match get_as v with
  | Some x => inr x
  | None => inl ParameterTypeMismatchError
  end.

(** The value of an expression that may throw, inside a computation. *)
Definition eval {S A} (r : exception + A) : M S A := fun s => (s, r).

(** An assignment to the object the computation runs on. *)
Definition assign {S} (x : S) : M S unit := fun _ => (x, inr tt).

(** [rclcpp::Parameter], a name and its value ([Parameter] alone is a
    reserved word). *)
Record RclcppParameter : Type := mkParameter {
  parameter_name : string;
  parameter_value : ParameterValue
}.

#[global] Instance RclcppParameter_eq_dec : EqDecision RclcppParameter.
Proof. solve_decision. Defined.

(** [Parameter::get_value<T>()], the same checked conversion on the value
    the parameter holds. *)
Definition get_value {T} `{ParameterT T} (p : RclcppParameter)
    : exception + T :=
  get (parameter_value p).

(** [rcl_interfaces::msg::ParameterDescriptor], reduced to two of its fields:
    the members below only pass it on. *)
Record ParameterDescriptor : Type := mkParameterDescriptor {
  description : string;
  read_only : bool
}.

(** [rcl_interfaces::msg::ParameterDescriptor()], the default argument. *)
Definition default_descriptor : ParameterDescriptor :=
  {| description := ""; read_only := false |}.

(** ** The interfaces a node is built from *)

(** [rclcpp::node_interfaces::NodeParametersInterface], the virtual interface
    behind [node_parameters_], with the four members this header reaches:
    the two non-template [declare_parameter] overloads, [get_parameter] that
    writes to a [Parameter &], and [get_parameters_by_prefix] that writes to
    a [std::map<std::string, Parameter> &]. *)
Class NodeParametersInterface (NP : Type) : Type := {
  np_declare_parameter :
    string -> ParameterValue -> ParameterDescriptor -> bool ->
    M NP ParameterValue;
  np_declare_parameter_type :
    string -> ParameterType -> ParameterDescriptor -> bool ->
    M NP ParameterValue;
  np_get_parameter : NP -> string -> M RclcppParameter bool;
  np_get_parameters_by_prefix : NP -> string -> M (gmap string RclcppParameter) bool
}.

(** The object a [std::shared_ptr] or [std::weak_ptr] points to. *)
Definition ObjectId : Type := nat.

(** The other node interfaces and the argument types of the factories; the
    header only hands them to [rclcpp]. *)
Class NodeInterfaces : Type := {
  NodeBase : Type;
  NodeGraph : Type;
  NodeTopics : Type;
  NodeTimers : Type;
  NodeServices : Type;
  Clock : Type;
  QoS : Type;
  rmw_qos_profile_t : Type;
  PublisherOptions : Type;
  SubscriptionOptions : Type;
  MessageMemoryStrategy : Type;
  Callback : Type;
  CallbackGroup : Type;
  Duration : Type
}.

(** The members of [LifecycleNode] the header reads, for a parameter
    service of type [NP] behind [node_parameters_]; the list of weak
    references to the managed entities is the registry. *)
Record LifecycleNode `{NodeInterfaces} (NP : Type) : Type := mkLifecycleNode {
  node_base_ : NodeBase;
  node_graph_ : NodeGraph;
  node_topics_ : NodeTopics;
  node_timers_ : NodeTimers;
  node_services_ : NodeServices;
  node_parameters_ : NP;
  node_clock_ : Clock;
  weak_managed_entities_ : list ObjectId
}.

Arguments mkLifecycleNode {_ _} _ _ _ _ _ _ _ _.
Arguments node_base_ {_ _} _.
Arguments node_graph_ {_ _} _.
Arguments node_topics_ {_ _} _.
Arguments node_timers_ {_ _} _.
Arguments node_services_ {_ _} _.
Arguments node_parameters_ {_ _} _.
Arguments node_clock_ {_ _} _.
Arguments weak_managed_entities_ {_ _} _.

(** The free functions of [rclcpp] the factories delegate to.  Each one runs
    on exactly the objects the header passes to it: [create_publisher] and
    [create_subscription] receive the node itself ([*this]), the others only
    the listed node interfaces. *)
Class Rclcpp `{NodeInterfaces} (NP : Type) : Type := {
  rclcpp_create_publisher :
    string -> QoS -> PublisherOptions -> M (LifecycleNode NP) ObjectId;
  rclcpp_create_subscription :
    string -> QoS -> Callback -> SubscriptionOptions ->
    MessageMemoryStrategy -> M (LifecycleNode NP) ObjectId;
  rclcpp_create_wall_timer :
    Duration -> Callback -> CallbackGroup ->
    M (NodeBase * NodeTimers) ObjectId;
  rclcpp_create_timer :
    Clock -> Duration -> Callback -> CallbackGroup ->
    M (NodeBase * NodeTimers) ObjectId;
  rclcpp_create_client_profile :
    string -> rmw_qos_profile_t -> CallbackGroup ->
    M (NodeBase * NodeGraph * NodeServices) ObjectId;
  rclcpp_create_client :
    string -> QoS -> CallbackGroup ->
    M (NodeBase * NodeGraph * NodeServices) ObjectId;
  rclcpp_create_service_profile :
    string -> Callback -> rmw_qos_profile_t -> CallbackGroup ->
    M (NodeBase * NodeServices) ObjectId;
  rclcpp_create_service :
    string -> Callback -> QoS -> CallbackGroup ->
    M (NodeBase * NodeServices) ObjectId;
  rclcpp_create_generic_publisher :
    string -> string -> QoS -> PublisherOptions -> M NodeTopics ObjectId;
  rclcpp_create_generic_subscription :
    string -> string -> QoS -> Callback -> SubscriptionOptions ->
    M NodeTopics ObjectId
}.

(** ** The entity factories *)

Section Factories.
Context `{NI : NodeInterfaces} {NP : Type} `{R : !Rclcpp NP}.

Definition set_weak_managed_entities (l : list ObjectId)
    (n : LifecycleNode NP) : LifecycleNode NP :=
  {| node_base_ := node_base_ n; node_graph_ := node_graph_ n;
     node_topics_ := node_topics_ n; node_timers_ := node_timers_ n;
     node_services_ := node_services_ n;
     node_parameters_ := node_parameters_ n; node_clock_ := node_clock_ n;
     weak_managed_entities_ := l |}.

Definition set_node_parameters (p : NP)
    (n : LifecycleNode NP) : LifecycleNode NP :=
  {| node_base_ := node_base_ n; node_graph_ := node_graph_ n;
     node_topics_ := node_topics_ n; node_timers_ := node_timers_ n;
     node_services_ := node_services_ n;
     node_parameters_ := p; node_clock_ := node_clock_ n;
     weak_managed_entities_ := weak_managed_entities_ n |}.

Definition set_node_topics (t : NodeTopics)
    (n : LifecycleNode NP) : LifecycleNode NP :=
  {| node_base_ := node_base_ n; node_graph_ := node_graph_ n;
     node_topics_ := t; node_timers_ := node_timers_ n;
     node_services_ := node_services_ n;
     node_parameters_ := node_parameters_ n; node_clock_ := node_clock_ n;
     weak_managed_entities_ := weak_managed_entities_ n |}.

Definition set_base_timers (p : NodeBase * NodeTimers)
    (n : LifecycleNode NP) : LifecycleNode NP :=
  {| node_base_ := p.1; node_graph_ := node_graph_ n;
     node_topics_ := node_topics_ n; node_timers_ := p.2;
     node_services_ := node_services_ n;
     node_parameters_ := node_parameters_ n; node_clock_ := node_clock_ n;
     weak_managed_entities_ := weak_managed_entities_ n |}.

Definition set_base_graph_services (p : NodeBase * NodeGraph * NodeServices)
    (n : LifecycleNode NP) : LifecycleNode NP :=
  {| node_base_ := p.1.1; node_graph_ := p.1.2;
     node_topics_ := node_topics_ n; node_timers_ := node_timers_ n;
     node_services_ := p.2;
     node_parameters_ := node_parameters_ n; node_clock_ := node_clock_ n;
     weak_managed_entities_ := weak_managed_entities_ n |}.

Definition set_base_services (p : NodeBase * NodeServices)
    (n : LifecycleNode NP) : LifecycleNode NP :=
  {| node_base_ := p.1; node_graph_ := node_graph_ n;
     node_topics_ := node_topics_ n; node_timers_ := node_timers_ n;
     node_services_ := p.2;
     node_parameters_ := node_parameters_ n; node_clock_ := node_clock_ n;
     weak_managed_entities_ := weak_managed_entities_ n |}.

(** Modelled from the spec: [LifecycleNode::add_managed_entity] (defined in
    lifecycle_node.cpp, not part of the sources at hand), which "stores a
    weak reference keyed by insertion order" (section 4.3). *)
Definition add_managed_entity (e : ObjectId) : M (LifecycleNode NP) unit :=
  fun n =>
    (set_weak_managed_entities (weak_managed_entities_ n ++ [e]) n, inr tt).

(** [LifecycleNode::get_clock()]. *)
Definition get_clock (n : LifecycleNode NP) : Clock := node_clock_ n.

Definition create_publisher (topic_name : string) (qos : QoS)
    (options : PublisherOptions) : M (LifecycleNode NP) ObjectId :=
  pub <- rclcpp_create_publisher topic_name qos options ;;
  _ <- add_managed_entity pub ;;
  ret pub.

Definition create_subscription (topic_name : string) (qos : QoS)
    (callback : Callback) (options : SubscriptionOptions)
    (msg_mem_strat : MessageMemoryStrategy) : M (LifecycleNode NP) ObjectId :=
  sub <- rclcpp_create_subscription topic_name qos callback options
           msg_mem_strat ;;
  _ <- add_managed_entity sub ;;
  ret sub.

Definition create_wall_timer (period : Duration) (callback : Callback)
    (group : CallbackGroup) : M (LifecycleNode NP) ObjectId :=
  on_member (fun n => (node_base_ n, node_timers_ n)) set_base_timers
    (rclcpp_create_wall_timer period callback group).

Definition create_timer (period : Duration) (callback : Callback)
    (group : CallbackGroup) : M (LifecycleNode NP) ObjectId :=
  fun n =>
    on_member (fun n => (node_base_ n, node_timers_ n)) set_base_timers
      (rclcpp_create_timer (get_clock n) period callback group) n.

Definition create_client_profile (service_name : string)
    (qos_profile : rmw_qos_profile_t) (group : CallbackGroup)
    : M (LifecycleNode NP) ObjectId :=
  on_member (fun n => (node_base_ n, node_graph_ n, node_services_ n))
    set_base_graph_services
    (rclcpp_create_client_profile service_name qos_profile group).

Definition create_client (service_name : string) (qos : QoS)
    (group : CallbackGroup) : M (LifecycleNode NP) ObjectId :=
  on_member (fun n => (node_base_ n, node_graph_ n, node_services_ n))
    set_base_graph_services
    (rclcpp_create_client service_name qos group).

Definition create_service_profile (service_name : string)
    (callback : Callback) (qos_profile : rmw_qos_profile_t)
    (group : CallbackGroup) : M (LifecycleNode NP) ObjectId :=
  on_member (fun n => (node_base_ n, node_services_ n)) set_base_services
    (rclcpp_create_service_profile service_name callback qos_profile group).

Definition create_service (service_name : string) (callback : Callback)
    (qos : QoS) (group : CallbackGroup) : M (LifecycleNode NP) ObjectId :=
  on_member (fun n => (node_base_ n, node_services_ n)) set_base_services
    (rclcpp_create_service service_name callback qos group).

Definition create_generic_publisher (topic_name topic_type : string)
    (qos : QoS) (options : PublisherOptions) : M (LifecycleNode NP) ObjectId :=
  on_member node_topics_ set_node_topics
    (rclcpp_create_generic_publisher topic_name topic_type qos options).

Definition create_generic_subscription (topic_name topic_type : string)
    (qos : QoS) (callback : Callback) (options : SubscriptionOptions)
    : M (LifecycleNode NP) ObjectId :=
  on_member node_topics_ set_node_topics
    (rclcpp_create_generic_subscription topic_name topic_type qos callback
       options).

End Factories.

(** ** The typed parameter members *)

(** [s.empty()]. *)
Definition string_empty (s : string) : bool :=
  match s with
  | EmptyString => true
  | String _ _ => false
  end.

(** [namespace_.empty() ? "" : (namespace_ + ".")]. *)
Definition normalized_namespace (namespace_ : string) : string :=
  if string_empty namespace_ then EmptyString else namespace_ +:+ ".".

Section Parameters.
Context `{NI : NodeInterfaces} `{NPI : NodeParametersInterface NP}.

(** Modelled from the spec: the non-template members
    [LifecycleNode::declare_parameter] (given a [ParameterValue] or a
    [ParameterType]) and [LifecycleNode::get_parameter] (given a
    [Parameter &]) are defined in lifecycle_node.cpp, not part of the
    sources at hand; the core "only consumes get/set parameter by name as
    an opaque key-value service" (section 1), so each hands its arguments
    to [node_parameters_]. *)
Definition declare_parameter_value (name : string)
    (default_value : ParameterValue)
    (parameter_descriptor : ParameterDescriptor) (ignore_override : bool)
    : M (LifecycleNode NP) ParameterValue :=
  on_member node_parameters_ set_node_parameters
    (np_declare_parameter name default_value parameter_descriptor
       ignore_override).

Definition declare_parameter_type (name : string) (type : ParameterType)
    (parameter_descriptor : ParameterDescriptor) (ignore_override : bool)
    : M (LifecycleNode NP) ParameterValue :=
  on_member node_parameters_ set_node_parameters
    (np_declare_parameter_type name type parameter_descriptor
       ignore_override).

Definition get_parameter_value (n : LifecycleNode NP) (name : string)
    : M RclcppParameter bool :=
  np_get_parameter (node_parameters_ n) name.

Context {T : Type} `{PT : ParameterT T}.

(** [declare_parameter<ParameterT>(name, default_value,
    parameter_descriptor, ignore_override)]. *)
Definition declare_parameter (name : string) (default_value : T)
    (parameter_descriptor : ParameterDescriptor) (ignore_override : bool)
    : M (LifecycleNode NP) T :=
  v <- declare_parameter_value name (to_value default_value)
         parameter_descriptor ignore_override ;;
  eval (get v).

(** [declare_parameter<ParameterT>(name, parameter_descriptor,
    ignore_override)], the overload without a default value. *)
Definition declare_parameter_no_default (name : string)
    (parameter_descriptor : ParameterDescriptor) (ignore_override : bool)
    : M (LifecycleNode NP) T :=
  let value := to_value (value_init : T) in
  v <- declare_parameter_type name (get_type value) parameter_descriptor
         ignore_override ;;
  eval (get v).

(** [declare_parameters<ParameterT>(namespace_, parameters)].  The lambda
    leaves the descriptor and [ignore_override] to their default arguments,
    an empty descriptor and [false]. *)
Definition declare_parameters (namespace_ : string)
    (parameters : gmap string T) : M (LifecycleNode NP) (list T) :=
  let normalized_namespace := normalized_namespace namespace_ in
  transform
    (fun element : string * T =>
       declare_parameter (normalized_namespace +:+ element.1) element.2
         default_descriptor false)
    (entries parameters).

(** [declare_parameters<ParameterT>(namespace_, parameters)] for a map to
    pairs of a value and a descriptor; the [static_cast<ParameterT>] is
    the identity on the types modelled here. *)
Definition declare_parameters_with_descriptors (namespace_ : string)
    (parameters : gmap string (T * ParameterDescriptor))
    : M (LifecycleNode NP) (list T) :=
  let normalized_namespace := normalized_namespace namespace_ in
  transform
    (fun element : string * (T * ParameterDescriptor) =>
       declare_parameter (normalized_namespace +:+ element.1)
         element.2.1 element.2.2 false)
    (entries parameters).

(** [get_parameter<ParameterT>(name, parameter) const]: the computation
    runs on the caller's variable [parameter]. *)
Definition get_parameter (n : LifecycleNode NP) (name : string) : M T bool :=
  fun parameter =>
    let param := mkParameter name (to_value parameter) in
    match get_parameter_value n name param with
    | (_, inl e) => (parameter, inl e)
    | (param, inr result) =>
        match get_value param with
        | inl e => (parameter, inl e)
        | inr x => (x, inr result)
        end
    end.

(** The loop of [get_parameters]:
    [values[param.first] = param.second.get_value<MapValueT>()] for each
    entry; the right-hand side is evaluated, and may throw, before the
    entry is created. *)
Fixpoint assign_values (params : list (string * RclcppParameter))
    : M (gmap string T) unit :=
  match params with
  | [] => ret tt
  | param :: rest =>
      x <- eval (get_value param.2) ;;
      _ <- (fun values => (<[param.1 := x]> values, inr tt)) ;;
      assign_values rest
  end.

(** [get_parameters<MapValueT>(prefix, values) const]: the computation
    runs on the caller's map [values]; [params] starts empty. *)
Definition get_parameters (n : LifecycleNode NP) (prefix : string)
    : M (gmap string T) bool :=
  fun values =>
    match np_get_parameters_by_prefix (node_parameters_ n) prefix ∅ with
    | (_, inl e) => (values, inl e)
    | (params, inr result) =>
        (_ <- (if result then assign_values (entries params) else ret tt) ;;
         ret result) values
    end.

(** [get_parameter_or<ParameterT>(name, value, alternative_value) const]:
    the computation runs on the caller's variable [value]. *)
Definition get_parameter_or (n : LifecycleNode NP) (name : string)
    (alternative_value : T) : M T bool :=
  got_parameter <- get_parameter n name ;;
  _ <- (if negb got_parameter then assign alternative_value else ret tt) ;;
  ret got_parameter.

End Parameters.

(** ** A parameter service and a middleware to run the members on *)

(** Modelled from the spec: the parameter service behind
    [node_parameters_] (rclcpp's NodeParameters is not part of the sources at
    hand).  It keeps one declaration per name, "names are unique per node"
    (section 3), and the overrides, "an externally supplied value for a
    declared parameter that takes precedence over the code-specified
    default" (glossary). *)
Record Declaration : Type := mkDeclaration {
  declared_type : ParameterType;
  declared_value : ParameterValue;
  declared_descriptor : ParameterDescriptor
}.

(** Modelled from the spec: the state of that service, the declarations and
    the overrides by name. *)
Record ParameterService : Type := mkParameterService {
  parameters_ : gmap string Declaration;
  parameter_overrides_ : gmap string ParameterValue
}.

Module ParameterService.

(** Modelled from the spec: [has_override(name) -> Option<Value>]
    (section 6). *)
Definition has_override (name : string) (s : ParameterService)
    : option ParameterValue :=
  parameter_overrides_ s !! name.

(** Modelled from the spec: the declaration [d] recorded under [name]. *)
Definition store (name : string) (d : Declaration) (s : ParameterService)
    : ParameterService :=
  {| parameters_ := <[name := d]> (parameters_ s);
     parameter_overrides_ := parameter_overrides_ s |}.

(** Modelled from the spec: the override that applies to a declaration, if
    any: "if an override
    ... exists for name and ignore_overrides is false, the override value is
    used instead of default" (section 4.5). *)
Definition applicable_override (name : string) (ignore_override : bool)
    (s : ParameterService) : option ParameterValue :=
  if ignore_override then None else has_override name s.

(** Modelled from the spec: declaration with a default value (section
    4.5): "fails with ParameterAlreadyDeclaredError if name already has a
    declaration"; otherwise the override, if one applies, or else the
    default becomes the value of the new declaration and is returned. *)
Definition declare_parameter (name : string) (default_value : ParameterValue)
    (parameter_descriptor : ParameterDescriptor) (ignore_override : bool)
    : M ParameterService ParameterValue :=
  fun s =>
    match parameters_ s !! name with
    | Some _ => (s, inl ParameterAlreadyDeclaredError)
    | None =>
        let v := default default_value
                   (applicable_override name ignore_override s) in
        (store name (mkDeclaration (get_type default_value) v
                       parameter_descriptor) s,
         inr v)
    end.

(** Modelled from the spec: declaration with a type and no default
    (section 4.5): it "otherwise follows the same contract, requiring an
    override or failing with ParameterUninitializedError if none
    exists". *)
Definition declare_parameter_type (name : string) (type : ParameterType)
    (parameter_descriptor : ParameterDescriptor) (ignore_override : bool)
    : M ParameterService ParameterValue :=
  fun s =>
    match parameters_ s !! name with
    | Some _ => (s, inl ParameterAlreadyDeclaredError)
    | None =>
        match applicable_override name ignore_override s with
        | Some v =>
            (store name (mkDeclaration type v parameter_descriptor) s, inr v)
        | None => (s, inl ParameterUninitializedError)
        end
    end.

(** Modelled from the spec: lookup by name (section 4.5): it "reports via
    boolean whether found (true) vs. left out unchanged (false)". *)
Definition get_parameter (s : ParameterService) (name : string)
    : M RclcppParameter bool :=
  fun parameter =>
    match parameters_ s !! name with
    | Some d => (mkParameter name (declared_value d), inr true)
    | None => (parameter, inr false)
    end.

(** Modelled from the spec: the key under which [get_parameters_by_prefix]
    files the parameter [name], "keyed by suffix" (section 4.5): what
    follows the prefix and the separator that [declare_parameters] puts
    between a namespace and a key. *)
Definition suffix_of (prefix name : string) : option string :=
  let prefix_with_dot := normalized_namespace prefix in
  if String.prefix prefix_with_dot name
     && bool_decide (String.length prefix_with_dot < String.length name)%nat
  then Some (String.substring (String.length prefix_with_dot)
               (String.length name - String.length prefix_with_dot) name)
  else None.

(** Modelled from the spec: it "bulk-fetches all declared parameters whose
    name starts with prefix into the mapping keyed by suffix" (section
    4.5), and reports whether there was any. *)
Definition get_parameters_by_prefix (s : ParameterService) (prefix : string)
    : M (gmap string RclcppParameter) bool :=
  fun parameters =>
    let found :=
      omap (fun e : string * Declaration =>
              key ← suffix_of prefix e.1;
              Some (key, mkParameter e.1 (declared_value e.2)))
        (entries (parameters_ s)) in
    (foldl (fun m e => <[e.1 := e.2]> m) parameters found,
     inr (negb (bool_decide (found = [])))).

End ParameterService.

#[global] Instance ParameterService_interface
    : NodeParametersInterface ParameterService := {|
  np_declare_parameter := ParameterService.declare_parameter;
  np_declare_parameter_type := ParameterService.declare_parameter_type;
  np_get_parameter := ParameterService.get_parameter;
  np_get_parameters_by_prefix := ParameterService.get_parameters_by_prefix
|}.

(** The node after the service has stored a declaration. *)
Definition declared `{NodeInterfaces} (name : string) (d : Declaration)
    (n : LifecycleNode ParameterService) : LifecycleNode ParameterService :=
  set_node_parameters (ParameterService.store name d (node_parameters_ n)) n.

(** Modelled from the spec: a stand-in for the middleware, which is an
    external collaborator (section 6):
    [create_endpoint(node_handles, name, type_info, qos, options) ->
    EndpointHandle | Error].  Each interface keeps the names of the
    endpoints made on it, the graph counts the clients; a new endpoint is
    numbered after the ones before it, and an empty name is refused with
    [EntityCreationError]. *)
#[global] Instance stub_interfaces : NodeInterfaces := {|
  NodeBase := unit;
  NodeGraph := nat;
  NodeTopics := list string;
  NodeTimers := list nat;
  NodeServices := list string;
  Clock := unit;
  QoS := nat;
  rmw_qos_profile_t := nat;
  PublisherOptions := unit;
  SubscriptionOptions := unit;
  MessageMemoryStrategy := unit;
  Callback := unit;
  CallbackGroup := unit;
  Duration := nat
|}.

Module Stub.

(** Modelled from the spec: [create_endpoint] on one interface. *)
Definition create_endpoint (name : string) : M (list string) ObjectId :=
  fun endpoints =>
    if string_empty name then (endpoints, inl EntityCreationError)
    else (endpoints ++ [name], inr (length endpoints)).

(** Modelled from the spec: a timer, kept by its period. *)
Definition create_timer (period : nat) : M (unit * list nat) ObjectId :=
  fun '(base, timers) => ((base, timers ++ [period]), inr (length timers)).

(** Modelled from the spec: a client is an endpoint on the services
    interface and is counted in the graph. *)
Definition create_client (name : string)
    : M (unit * nat * list string) ObjectId :=
  fun '(base, graph, services) =>
    match create_endpoint name services with
    | (services', inl e) => ((base, graph, services'), inl e)
    | (services', inr h) => ((base, S graph, services'), inr h)
    end.

(** Modelled from the spec: a service is an endpoint on the services
    interface. *)
Definition create_service (name : string)
    : M (unit * list string) ObjectId :=
  on_member snd (fun s p => (p.1, s)) (create_endpoint name).

(** Modelled from the spec: a publisher or subscription made through the
    node is an endpoint on its topics interface. *)
Definition create_on_node (name : string)
    : M (LifecycleNode ParameterService) ObjectId :=
  on_member node_topics_ set_node_topics (create_endpoint name).

End Stub.

(** Modelled from the spec: the delegates of [rclcpp] on the stand-in. *)
#[global] Instance stub_rclcpp : Rclcpp ParameterService := {|
  rclcpp_create_publisher topic_name _ _ := Stub.create_on_node topic_name;
  rclcpp_create_subscription topic_name _ _ _ _ :=
    Stub.create_on_node topic_name;
  rclcpp_create_wall_timer period _ _ := Stub.create_timer period;
  rclcpp_create_timer _ period _ _ := Stub.create_timer period;
  rclcpp_create_client_profile name _ _ := Stub.create_client name;
  rclcpp_create_client name _ _ := Stub.create_client name;
  rclcpp_create_service_profile name _ _ _ := Stub.create_service name;
  rclcpp_create_service name _ _ _ := Stub.create_service name;
  rclcpp_create_generic_publisher name _ _ _ := Stub.create_endpoint name;
  rclcpp_create_generic_subscription name _ _ _ _ := Stub.create_endpoint name
|}.

(** A node on the stand-in middleware with the given parameter service and
    nothing created yet. *)
Definition stub_node (p : ParameterService)
    : LifecycleNode ParameterService :=
  {| node_base_ := tt; node_graph_ := 0%nat; node_topics_ := [];
     node_timers_ := []; node_services_ := []; node_parameters_ := p;
     node_clock_ := tt; weak_managed_entities_ := [] |}.

(** ** A node with a few parameters

    Its service has the string ["mode"] and the integer ["sensor.rate"]
    declared, and holds overrides for ["gain"] (an integer) and ["label"]
    (a string), neither declared yet. *)
Definition example_service : ParameterService :=
  {| parameters_ :=
       <["mode" := mkDeclaration PARAMETER_STRING (StringValue "fast")
                     default_descriptor]>
         (<["sensor.rate" := mkDeclaration PARAMETER_INTEGER (IntegerValue 10)
                               default_descriptor]> ∅);
     parameter_overrides_ :=
       <["gain" := IntegerValue 7]> (<["label" := StringValue "hello"]> ∅) |}.

Definition example_node : LifecycleNode ParameterService :=
  stub_node example_service.

(** The mapping [{"rate": 10, "enabled": 1}] of integers. *)
Definition example_mapping : gmap string Z :=
  <["rate" := 10]> (<["enabled" := 1]> ∅).

(** A caller's mapping with an entry for ["rate"] and one for ["other"]. *)
Definition example_values : gmap string Z :=
  <["rate" := 1]> (<["other" := 2]> ∅).

(** * Properties *)

(** ** Iteration over a [std::map] *)

Lemma entries_Permutation {V} (m : gmap string V) :
  entries m ≡ₚ map_to_list m.
Proof. apply merge_sort_Permutation. Qed.

(** The walk is in ascending key order. *)
Lemma entries_sorted {V} (m : gmap string V) :
  StronglySorted key_le (entries m).
Proof. apply StronglySorted_merge_sort; apply _. Qed.

Lemma elem_of_entries {V} (m : gmap string V) k v :
  (k, v) ∈ entries m <-> m !! k = Some v.
Proof. rewrite entries_Permutation. apply elem_of_map_to_list. Qed.

Lemma NoDup_fst_entries {V} (m : gmap string V) : NoDup (entries m).*1.
Proof. rewrite entries_Permutation. apply NoDup_fst_map_to_list. Qed.

Lemma length_entries {V} (m : gmap string V) : length (entries m) = size m.
Proof. rewrite entries_Permutation. apply length_map_to_list. Qed.

Lemma entries_singleton {V} k (v : V) : entries {[k := v]} = [(k, v)].
Proof. unfold entries. by rewrite map_to_list_singleton. Qed.

Lemma not_elem_of_fst_entries {V} (m : gmap string V) k :
  k ∉ (entries m).*1 <-> m !! k = None.
Proof.
  rewrite list_elem_of_fmap. split.
  - intros Hk. destruct (m !! k) as [v|] eqn:Hm; [|done].
    destruct Hk. exists (k, v). split; [done|]. by apply elem_of_entries.
  - intros Hm [[k' v] [-> Hin]]. apply elem_of_entries in Hin.
    simpl in *. congruence.
Qed.

(** ** [transform] *)

Lemma transform_ext {S A B} (f g : A -> M S B) l s :
  (forall a s', f a s' = g a s') -> transform f l s = transform g l s.
Proof.
  intros Hfg. revert s. induction l as [|a l IH]; intros s; [done|].
  simpl. unfold bind. rewrite Hfg. destruct (g a s) as [s' [e|b]]; [done|].
  by rewrite IH.
Qed.

(** A walk that returns has produced one result per element, each by the
    call on that element, in order. *)
Lemma transform_returns {S A B} (f : A -> M S B) l s s' bs :
  transform f l s = (s', inr bs) ->
  Forall2 (fun a b => exists s1 s2, f a s1 = (s2, inr b)) l bs.
Proof.
  revert s s' bs. induction l as [|a l IH]; intros s s' bs; simpl.
  - unfold ret. intros [= _ <-]. constructor.
  - unfold bind at 1. destruct (f a s) as [s1 [e|b]] eqn:Hf; [done|].
    unfold bind at 1. destruct (transform f l s1) as [s2 [e|bs']] eqn:Ht;
      [done|].
    unfold ret. intros [= _ <-]. constructor.
    + by exists s, s1.
    + by eapply IH.
Qed.

(** The walk stops at the first call that throws: the calls before it have
    run, the ones after it have not. *)
Lemma transform_throws {S A B} (f : A -> M S B) l1 a l2 s s1 bs s2 e :
  transform f l1 s = (s1, inr bs) ->
  f a s1 = (s2, inl e) ->
  transform f (l1 ++ a :: l2) s = (s2, inl e).
Proof.
  revert s bs. induction l1 as [|a1 l1 IH]; intros s bs Hl Hf.
  - injection Hl as -> _. simpl. unfold bind. by rewrite Hf.
  - simpl in *. unfold bind in Hl |- *.
    destruct (f a1 s) as [s' [e'|b]]; [done|].
    destruct (transform f l1 s') as [s'' [e'|bs']] eqn:Ht; [done|].
    injection Hl as -> _. by rewrite (IH _ _ Ht Hf).
Qed.

Lemma normalized_namespace_non_empty ns :
  ns ≠ "" -> normalized_namespace ns = ns +:+ ".".
Proof. by destruct ns. Qed.

Lemma append_assoc (s1 s2 s3 : string) :
  (s1 +:+ s2) +:+ s3 = s1 +:+ s2 +:+ s3.
Proof.
  induction s1 as [|a s1 IH]; [done|].
  change (String a ((s1 +:+ s2) +:+ s3) = String a (s1 +:+ s2 +:+ s3)).
  by rewrite IH.
Qed.

(** ** The factories and the registry *)

Section FactoryProperties.
Context `{NI : NodeInterfaces} {NP : Type} `{R : !Rclcpp NP}.

(** C1. A call of [create_publisher] or [create_subscription] that returns
    an entity has obtained it from [rclcpp], has registered that same
    entity with [add_managed_entity] on the node as [rclcpp] left it, so
    that it is the last entry of the registry, and returns it. *)
Theorem create_registers_returned_entity :
  (forall topic_name qos options n n' pub,
     create_publisher topic_name qos options n = (n', inr pub) ->
     exists n1,
       rclcpp_create_publisher topic_name qos options n = (n1, inr pub)
       /\ add_managed_entity pub n1 = (n', inr tt)
       /\ weak_managed_entities_ n' = weak_managed_entities_ n1 ++ [pub])
  /\ (forall topic_name qos callback options msg_mem_strat n n' sub,
        create_subscription topic_name qos callback options msg_mem_strat n
          = (n', inr sub) ->
        exists n1,
          rclcpp_create_subscription topic_name qos callback options
            msg_mem_strat n = (n1, inr sub)
          /\ add_managed_entity sub n1 = (n', inr tt)
          /\ weak_managed_entities_ n' = weak_managed_entities_ n1 ++ [sub]).
Proof.
  split.
  - intros topic_name qos options n n' pub.
    unfold create_publisher, bind.
    destruct (rclcpp_create_publisher topic_name qos options n)
      as [n1 [e|p]]; [done|].
    simpl. intros [= <- <-]. by exists n1.
  - intros topic_name qos callback options msg_mem_strat n n' sub.
    unfold create_subscription, bind.
    destruct (rclcpp_create_subscription topic_name qos callback options
                msg_mem_strat n) as [n1 [e|p]]; [done|].
    simpl. intros [= <- <-]. by exists n1.
Qed.

Lemma on_member_registry {P A} (proj : LifecycleNode NP -> P)
    (upd : P -> LifecycleNode NP -> LifecycleNode NP) (m : M P A) n :
  (forall p n0,
     weak_managed_entities_ (upd p n0) = weak_managed_entities_ n0) ->
  weak_managed_entities_ (on_member proj upd m n).1
  = weak_managed_entities_ n.
Proof.
  intros Hupd. unfold on_member. destruct (m (proj n)) as [p r]. apply Hupd.
Qed.

(** C2. The generic publisher and subscription, the timers, the clients and
    the services are created without a change to the registry, whether the
    creation returns or throws. *)
Theorem unmanaged_factories_keep_registry (n : LifecycleNode NP) :
  (forall topic_name topic_type qos options,
     weak_managed_entities_
       (create_generic_publisher topic_name topic_type qos options n).1
     = weak_managed_entities_ n)
  /\ (forall topic_name topic_type qos callback options,
        weak_managed_entities_
          (create_generic_subscription topic_name topic_type qos callback
             options n).1
        = weak_managed_entities_ n)
  /\ (forall period callback group,
        weak_managed_entities_ (create_wall_timer period callback group n).1
        = weak_managed_entities_ n)
  /\ (forall period callback group,
        weak_managed_entities_ (create_timer period callback group n).1
        = weak_managed_entities_ n)
  /\ (forall service_name qos_profile group,
        weak_managed_entities_
          (create_client_profile service_name qos_profile group n).1
        = weak_managed_entities_ n)
  /\ (forall service_name qos group,
        weak_managed_entities_ (create_client service_name qos group n).1
        = weak_managed_entities_ n)
  /\ (forall service_name callback qos_profile group,
        weak_managed_entities_
          (create_service_profile service_name callback qos_profile group
             n).1
        = weak_managed_entities_ n)
  /\ (forall service_name callback qos group,
        weak_managed_entities_
          (create_service service_name callback qos group n).1
        = weak_managed_entities_ n).
Proof.
  repeat split; intros;
    first [ apply on_member_registry
          | unfold create_timer; apply on_member_registry ];
    done.
Qed.

End FactoryProperties.


(** ** Declaring parameters *)

Section DeclareProperties.
Context `{NI : NodeInterfaces} `{NPI : NodeParametersInterface NP}.
Context {T : Type} `{PT : ParameterT T}.

(** With an empty namespace the parameters are declared under the keys
    themselves. *)
Lemma declare_parameters_empty_namespace (m : gmap string T) n :
  declare_parameters "" m n
  = transform
      (fun e : string * T =>
         declare_parameter e.1 e.2 default_descriptor false)
      (entries m) n.
Proof. reflexivity. Qed.

(** C4. Declaring the one-entry mapping [{k: v}] under the empty namespace
    is the declaration of [k] itself with value [v]: same name, same
    outcome and same node afterwards, the value coming back as the only
    element of the list. *)
Theorem declare_parameters_empty_namespace_singleton (k : string) (v : T)
    (n : LifecycleNode NP) :
  declare_parameters "" {[k := v]} n
  = (x <- declare_parameter k v default_descriptor false ;; ret [x]) n.
Proof.
  rewrite declare_parameters_empty_namespace, entries_singleton. simpl.
  unfold bind.
  by destruct (declare_parameter k v default_descriptor false n)
    as [n' [e|x]].
Qed.

(** C5, as the code has it. Under a non-empty namespace [ns] the parameters
    are declared in the iteration order of the mapping, the entry
    [(key, value)] under the name [ns + "." + key], and the first
    declaration that throws ends the call with its exception; a call that
    returns has made one declaration per entry and returns their values in
    that order, as many as the mapping has entries.  The same holds for the
    mapping to pairs of a value and a descriptor. *)
Theorem declare_parameters_namespace (ns : string) (n : LifecycleNode NP) :
  ns ≠ "" ->
  (forall m : gmap string T,
     declare_parameters ns m n
     = transform
         (fun e : string * T =>
            declare_parameter (ns +:+ "." +:+ e.1) e.2
              default_descriptor false)
         (entries m) n
     /\ (forall n' result,
          declare_parameters ns m n = (n', inr result) ->
          length result = size m
          /\ Forall2
               (fun (e : string * T) x =>
                  exists n1 n2,
                    declare_parameter (ns +:+ "." +:+ e.1) e.2
                      default_descriptor false n1 = (n2, inr x))
               (entries m) result)
     /\ (forall l1 el l2 n1 n2 values e,
          entries m = l1 ++ el :: l2 ->
          transform
            (fun e : string * T =>
               declare_parameter (ns +:+ "." +:+ e.1) e.2
                 default_descriptor false) l1 n = (n1, inr values) ->
          declare_parameter (ns +:+ "." +:+ el.1) el.2
            default_descriptor false n1 = (n2, inl e) ->
          declare_parameters ns m n = (n2, inl e)))
  /\ (forall m : gmap string (T * ParameterDescriptor),
        declare_parameters_with_descriptors ns m n
        = transform
            (fun e : string * (T * ParameterDescriptor) =>
               declare_parameter (ns +:+ "." +:+ e.1) e.2.1 e.2.2 false)
            (entries m) n
        /\ (forall n' result,
             declare_parameters_with_descriptors ns m n = (n', inr result) ->
             length result = size m
             /\ Forall2
                  (fun (e : string * (T * ParameterDescriptor)) x =>
                     exists n1 n2,
                       declare_parameter (ns +:+ "." +:+ e.1) e.2.1 e.2.2
                         false n1 = (n2, inr x))
                  (entries m) result)
        /\ (forall l1 el l2 n1 n2 values e,
             entries m = l1 ++ el :: l2 ->
             transform
               (fun e : string * (T * ParameterDescriptor) =>
                  declare_parameter (ns +:+ "." +:+ e.1) e.2.1 e.2.2 false)
               l1 n = (n1, inr values) ->
             declare_parameter (ns +:+ "." +:+ el.1) el.2.1 el.2.2 false n1
             = (n2, inl e) ->
             declare_parameters_with_descriptors ns m n = (n2, inl e))).
Proof.
  intros Hns. split; intros m.
  - assert (declare_parameters ns m n
            = transform
                (fun e : string * T =>
                   declare_parameter (ns +:+ "." +:+ e.1) e.2
                     default_descriptor false)
                (entries m) n) as Heq.
    { unfold declare_parameters.
      rewrite (normalized_namespace_non_empty ns Hns).
      apply transform_ext. intros e s. by rewrite append_assoc. }
    split; [done|]. split.
    + intros n' result. rewrite Heq. intros Hres.
      apply transform_returns in Hres. split; [|done].
      apply Forall2_length in Hres. by rewrite <- Hres, length_entries.
    + intros l1 el l2 n1 n2 values e Hentries Hbefore Hthrow.
      rewrite Heq, Hentries. by eapply transform_throws.
  - assert (declare_parameters_with_descriptors ns m n
            = transform
                (fun e : string * (T * ParameterDescriptor) =>
                   declare_parameter (ns +:+ "." +:+ e.1) e.2.1 e.2.2 false)
                (entries m) n) as Heq.
    { unfold declare_parameters_with_descriptors.
      rewrite (normalized_namespace_non_empty ns Hns).
      apply transform_ext. intros e s. by rewrite append_assoc. }
    split; [done|]. split.
    + intros n' result. rewrite Heq. intros Hres.
      apply transform_returns in Hres. split; [|done].
      apply Forall2_length in Hres. by rewrite <- Hres, length_entries.
    + intros l1 el l2 n1 n2 values e Hentries Hbefore Hthrow.
      rewrite Heq, Hentries. by eapply transform_throws.
Qed.

End DeclareProperties.

(** ** Reading parameters *)

Section GetProperties.
Context `{NI : NodeInterfaces} `{NPI : NodeParametersInterface NP}.
Context {T : Type} `{PT : ParameterT T}.

Lemma get_to_value (x : T) : get (to_value x) = inr x.
Proof. unfold get. by rewrite get_as_to_value. Qed.

(** What [get_parameter] does with each answer of the lookup: a lookup
    that reports nothing found and leaves its argument alone gives [false]
    and the variable as it was; a parameter found is converted, and only
    a value of type [T] is assigned. *)
Lemma get_parameter_not_found (n : LifecycleNode NP) name (parameter : T) :
  get_parameter_value n name (mkParameter name (to_value parameter))
  = (mkParameter name (to_value parameter), inr false) ->
  get_parameter n name parameter = (parameter, inr false).
Proof.
  intros Hget. unfold get_parameter. rewrite Hget.
  unfold get_value. simpl. by rewrite get_to_value.
Qed.

Lemma get_parameter_found (n : LifecycleNode NP) name (parameter : T) p :
  get_parameter_value n name (mkParameter name (to_value parameter))
  = (p, inr true) ->
  get_parameter n name parameter
  = match get_as (parameter_value p) with
    | Some x => (x, inr true)
    | None => (parameter, inl ParameterTypeMismatchError)
    end.
Proof.
  intros Hget. unfold get_parameter. rewrite Hget.
  unfold get_value, get. by destruct (get_as (parameter_value p)).
Qed.

(** [get_parameter_or] after [get_parameter]. *)
Lemma get_parameter_or_unfold (n : LifecycleNode NP) name alternative
    (value : T) :
  get_parameter_or n name alternative value
  = match get_parameter n name value with
    | (value', inl e) => (value', inl e)
    | (value', inr true) => (value', inr true)
    | (_, inr false) => (alternative, inr false)
    end.
Proof.
  unfold get_parameter_or, bind.
  by destruct (get_parameter n name value) as [value' [e|[]]].
Qed.

(** The loop of [get_parameters], for keys that occur once: when it runs
    to its end every parameter of the list held a [T], which is now under
    its key, and the other keys of the map are as before. *)
Lemma assign_values_lookup (params : list (string * RclcppParameter))
    (values values' : gmap string T) :
  NoDup params.*1 ->
  assign_values params values = (values', inr tt) ->
  (forall key p, (key, p) ∈ params ->
     exists x, parameter_value p = to_value x /\ values' !! key = Some x)
  /\ (forall key, key ∉ params.*1 -> values' !! key = values !! key).
Proof.
  revert values. induction params as [|[k p] params IH]; intros values.
  - simpl. unfold ret. intros _ [= <-]. split; [|done].
    intros key q Hin. by apply elem_of_nil in Hin.
  - rewrite fmap_cons, NoDup_cons. simpl. intros [Hk Hnd].
    unfold bind at 1, eval, get_value, get.
    destruct (get_as (parameter_value p)) as [x|] eqn:Hx; [|done].
    unfold bind at 1. intros Hrest.
    destruct (IH _ Hnd Hrest) as [Hin Hout]. split.
    + intros key q [[= -> ->]|Hq]%elem_of_cons.
      * exists x. split; [by apply get_as_Some|].
        by rewrite (Hout _ Hk), lookup_insert_eq.
      * by apply Hin.
    + intros key [Hne Hkey]%not_elem_of_cons.
      rewrite (Hout _ Hkey). by apply lookup_insert_ne.
Qed.

(** C9. When the lookup by prefix reports failure, [get_parameters] returns
    [false] and the caller's mapping is the mapping it was given. *)
Theorem get_parameters_failure_keeps_mapping (n : LifecycleNode NP)
    (prefix : string) (values : gmap string T) params :
  np_get_parameters_by_prefix (node_parameters_ n) prefix ∅
  = (params, inr false) ->
  get_parameters n prefix values = (values, inr false).
Proof. intros Hlookup. unfold get_parameters. by rewrite Hlookup. Qed.

(** C10. When [get_parameters] returns [true], the lookup by prefix has
    returned [true] with some fetched parameters, and the caller's mapping
    is the old one with the fetched values merged in: a key among the
    fetched suffixes now maps to the fetched value, whatever it mapped to
    before, and every other key maps to what it did before. *)
Theorem get_parameters_merges (n : LifecycleNode NP) (prefix : string)
    (values values' : gmap string T) :
  get_parameters n prefix values = (values', inr true) ->
  exists params,
    np_get_parameters_by_prefix (node_parameters_ n) prefix ∅
    = (params, inr true)
    /\ forall key,
         match params !! key with
         | Some p =>
             exists x,
               parameter_value p = to_value x /\ values' !! key = Some x
         | None => values' !! key = values !! key
         end.
Proof.
  unfold get_parameters.
  destruct (np_get_parameters_by_prefix (node_parameters_ n) prefix ∅)
    as [params [e|result]]; [done|].
  unfold bind at 1. destruct result.
  - destruct (assign_values (entries params) values) as [vs [e|[]]] eqn:Hloop;
      [done|].
    unfold ret. intros [= <-]. exists params. split; [done|].
    apply assign_values_lookup in Hloop as [Hin Hout];
      [|apply NoDup_fst_entries].
    intros key. destruct (params !! key) as [p|] eqn:Hkey.
    + apply Hin. by apply elem_of_entries.
    + apply Hout. by apply not_elem_of_fst_entries.
  - by unfold ret.
Qed.

End GetProperties.

(** ** The members on the parameter service *)

Section ServiceProperties.
Context `{NI : NodeInterfaces} {T : Type} `{PT : ParameterT T}.
Implicit Types n : LifecycleNode ParameterService.

(** The lookup of the service: the declared value under the name, or the
    argument left alone. *)
Lemma get_parameter_value_on_service n (name : string) param :
  get_parameter_value n name param
  = match parameters_ (node_parameters_ n) !! name with
    | Some d => (mkParameter name (declared_value d), inr true)
    | None => (param, inr false)
    end.
Proof. reflexivity. Qed.

(** C3, as the code has it. [get_parameter] on a name that is not found
    returns [false] and leaves the variable as it was, without an
    exception; on a name found with a value of type [T] it returns [true]
    and the variable holds the value; on a name found with a value of
    another type the conversion throws and the variable is as it was. *)
Theorem get_parameter_by_lookup n (name : string) (parameter : T) :
  get_parameter n name parameter
  = match parameters_ (node_parameters_ n) !! name with
    | None => (parameter, inr false)
    | Some d =>
        match get_as (declared_value d) with
        | Some x => (x, inr true)
        | None => (parameter, inl ParameterTypeMismatchError)
        end
    end.
Proof.
  destruct (parameters_ (node_parameters_ n) !! name) as [d|] eqn:Hname.
  - rewrite (get_parameter_found n name parameter
               (mkParameter name (declared_value d))); [done|].
    by rewrite get_parameter_value_on_service, Hname.
  - apply get_parameter_not_found.
    by rewrite get_parameter_value_on_service, Hname.
Qed.

(** C6, as the code has it. [get_parameter_or] on a name that is not found
    returns [false] and the variable holds the alternative; on a name
    found with a value of type [T] it returns [true] and the variable
    holds the value; on a name found with a value of another type the
    conversion throws and the variable is as it was. *)
Theorem get_parameter_or_by_lookup n (name : string) (alternative value : T) :
  get_parameter_or n name alternative value
  = match parameters_ (node_parameters_ n) !! name with
    | None => (alternative, inr false)
    | Some d =>
        match get_as (declared_value d) with
        | Some x => (x, inr true)
        | None => (value, inl ParameterTypeMismatchError)
        end
    end.
Proof.
  rewrite get_parameter_or_unfold.
  destruct (parameters_ (node_parameters_ n) !! name) as [d|] eqn:Hname.
  - rewrite (get_parameter_found n name value
               (mkParameter name (declared_value d)));
      [|by rewrite get_parameter_value_on_service, Hname].
    simpl. by destruct (get_as (declared_value d)).
  - rewrite get_parameter_not_found; [done|].
    by rewrite get_parameter_value_on_service, Hname.
Qed.

(** C7, as the code has it. The overload without a default declares with
    the type tag of [ParameterT{}].  On a name not declared before: when
    no override applies (there is none, or overrides are ignored) the call
    fails with [ParameterUninitializedError]; when
    the override that applies holds a [T], it becomes the declared value
    and is returned; when it holds another type, the call fails with
    [ParameterTypeMismatchError]. *)
Theorem declare_parameter_no_default_by_override n (name : string)
    (parameter_descriptor : ParameterDescriptor) (ignore_override : bool) :
  parameters_ (node_parameters_ n) !! name = None ->
  declare_parameter_no_default (T := T) name parameter_descriptor
    ignore_override n
  = match ParameterService.applicable_override name ignore_override
            (node_parameters_ n) with
    | None => (n, inl ParameterUninitializedError)
    | Some v =>
        (declared name
           (mkDeclaration (get_type (to_value (value_init : T))) v
              parameter_descriptor) n,
         match get_as v with
         | Some x => inr x
         | None => inl ParameterTypeMismatchError
         end)
    end.
Proof.
  intros Hname.
  unfold declare_parameter_no_default, bind, declare_parameter_type,
    on_member.
  simpl. unfold ParameterService.declare_parameter_type. rewrite Hname.
  destruct (ParameterService.applicable_override name ignore_override
              (node_parameters_ n)) as [v|]; [|by destruct n].
  unfold eval, get, declared. by destruct (get_as v).
Qed.

(** C8, as the code has it. The value [declare_parameter] returns is the
    declared value converted back to [T] by the checked [get]: whenever the
    call returns [x], the declaration made for the name holds exactly
    [to_value x]; and on a name not declared before, when an override
    exists, is not ignored and is of a type incompatible with [T], the call
    fails with [ParameterTypeMismatchError] instead of returning a value. *)
Theorem declare_parameter_checked_conversion n (name : string)
    (default_value : T) (parameter_descriptor : ParameterDescriptor)
    (ignore_override : bool) :
  (forall n' x,
     declare_parameter name default_value parameter_descriptor
       ignore_override n = (n', inr x) ->
     declared_value <$> parameters_ (node_parameters_ n') !! name
     = Some (to_value x))
  /\ (forall v,
        parameters_ (node_parameters_ n) !! name = None ->
        ParameterService.applicable_override name ignore_override
          (node_parameters_ n) = Some v ->
        get_as (T := T) v = None ->
        declare_parameter name default_value parameter_descriptor
          ignore_override n
        = (declared name
             (mkDeclaration (param_type (T := T)) v parameter_descriptor) n,
           inl ParameterTypeMismatchError)).
Proof.
  unfold declare_parameter, bind, declare_parameter_value, on_member.
  simpl. unfold ParameterService.declare_parameter. split.
  - intros n' x.
    destruct (parameters_ (node_parameters_ n) !! name); [done|].
    unfold eval, get.
    destruct (get_as _) as [y|] eqn:Hy; [|done].
    intros [= <- <-]. simpl. rewrite lookup_insert_eq. simpl.
    f_equal. by apply get_as_Some.
  - intros v -> -> Hv. simpl. unfold eval, get, declared.
    by rewrite Hv, get_type_to_value.
Qed.

End ServiceProperties.

(** ** The members at work on the example node *)

(** The first publisher, and the first subscription, made on the example
    node: the entity numbered 0 is returned and is the one registered. *)
Lemma create_registers_returned_entity_witness :
  (exists n1,
     rclcpp_create_publisher "chatter" 10%nat tt example_node = (n1, inr 0%nat)
     /\ add_managed_entity 0%nat n1
        = (set_weak_managed_entities [0%nat]
             (set_node_topics ["chatter"] example_node), inr tt)
     /\ weak_managed_entities_
          (set_weak_managed_entities [0%nat]
             (set_node_topics ["chatter"] example_node))
        = weak_managed_entities_ n1 ++ [0%nat])
  /\ (exists n1,
        rclcpp_create_subscription "chatter" 10%nat tt tt tt example_node
        = (n1, inr 0%nat)
        /\ add_managed_entity 0%nat n1
           = (set_weak_managed_entities [0%nat]
                (set_node_topics ["chatter"] example_node), inr tt)
        /\ weak_managed_entities_
             (set_weak_managed_entities [0%nat]
                (set_node_topics ["chatter"] example_node))
           = weak_managed_entities_ n1 ++ [0%nat]).
Proof.
  split.
  - apply (proj1 (create_registers_returned_entity (R := stub_rclcpp))
             "chatter" 10%nat tt example_node).
    reflexivity.
  - apply (proj2 (create_registers_returned_entity (R := stub_rclcpp))
             "chatter" 10%nat tt tt tt example_node).
    reflexivity.
Defined.

(** Under the namespace ["camera"] the two entries of the example mapping
    are declared in key order and their values come back in that order. *)
Lemma declare_parameters_namespace_witness :
  declare_parameters "camera" example_mapping example_node
  = transform
      (fun e : string * Z =>
         declare_parameter ("camera" +:+ "." +:+ e.1) e.2
           default_descriptor false)
      (entries example_mapping) example_node
  /\ (declare_parameters "camera" example_mapping example_node).2
     = inr [1; 10]
  /\ entries example_mapping = [("enabled", 1); ("rate", 10)].
Proof.
  split.
  - apply (proj1 (declare_parameters_namespace (T := Z) "camera" example_node
                    ltac:(discriminate))).
  - split; vm_compute; reflexivity.
Defined.

(** ["mode"] is found, but it holds a string: read as an integer, the call
    neither returns [true] nor [false], it throws. *)
Lemma get_parameter_found_type_mismatch :
  parameters_ (node_parameters_ example_node) !! "mode"
  = Some (mkDeclaration PARAMETER_STRING (StringValue "fast")
            default_descriptor)
  /\ get_parameter (T := Z) example_node "mode" 0
     = (0, inl ParameterTypeMismatchError).
Proof. split; vm_compute; reflexivity. Qed.

(** The same lookup through [get_parameter_or]: the parameter is found, the
    call does not return [true], and the variable holds neither the value
    of the parameter nor the alternative. *)
Lemma get_parameter_or_found_type_mismatch :
  parameters_ (node_parameters_ example_node) !! "mode"
  = Some (mkDeclaration PARAMETER_STRING (StringValue "fast")
            default_descriptor)
  /\ get_parameter_or (T := Z) example_node "mode" 99 0
     = (0, inl ParameterTypeMismatchError).
Proof. split; vm_compute; reflexivity. Qed.

(** Three calls of the overload without a default, as an integer.
    ["label"] has an override, a string: the call does not return the value
    of the override, it throws the type mismatch.  ["gain"] has an integer
    override, but with [ignore_override] set the call does not return it
    either.  ["mode"] has no override, but it is declared already, and the
    call fails with [ParameterAlreadyDeclaredError]. *)
Lemma declare_parameter_no_default_override_not_returned :
  (parameter_overrides_ (node_parameters_ example_node) !! "label"
   = Some (StringValue "hello")
   /\ (declare_parameter_no_default (T := Z) "label" default_descriptor false
         example_node).2
      = inl ParameterTypeMismatchError)
  /\ (parameter_overrides_ (node_parameters_ example_node) !! "gain"
      = Some (IntegerValue 7)
      /\ (declare_parameter_no_default (T := Z) "gain" default_descriptor true
            example_node).2
         = inl ParameterUninitializedError)
  /\ (parameter_overrides_ (node_parameters_ example_node) !! "mode" = None
      /\ (declare_parameter_no_default (T := Z) "mode" default_descriptor
            false example_node).2
         = inl ParameterAlreadyDeclaredError).
Proof. repeat split; vm_compute; reflexivity. Qed.

(** Under the non-empty namespace ["sensor"] the example mapping is not
    declared entry by entry to the end: ["sensor.rate"] is declared already,
    the call throws and returns no list. *)
Lemma declare_parameters_namespace_throws :
  "sensor" ≠ ""
  /\ size example_mapping = 2%nat
  /\ (declare_parameters "sensor" example_mapping example_node).2
     = inl ParameterAlreadyDeclaredError
  /\ parameters_
       (node_parameters_
          (declare_parameters "sensor" example_mapping example_node).1)
     !! "sensor.rate"
     = Some (mkDeclaration PARAMETER_INTEGER (IntegerValue 10)
               default_descriptor).
Proof. split; [done|]. repeat split; vm_compute; reflexivity. Qed.

(** ["label"] has a string override.  Declared as an integer with default 3
    and [ignore_override] set, the call does not fail, it returns 3; once
    ["label"] is declared, a second declaration as an integer fails with
    [ParameterAlreadyDeclaredError], not with the type mismatch. *)
Lemma declare_parameter_incompatible_override_no_mismatch :
  parameter_overrides_ (node_parameters_ example_node) !! "label"
  = Some (StringValue "hello")
  /\ get_as (T := Z) (StringValue "hello") = None
  /\ (declare_parameter (T := Z) "label" 3 default_descriptor true
        example_node).2
     = inr 3
  /\ (declare_parameter (T := Z) "label" 3 default_descriptor false
        (declare_parameter (T := string) "label" "none" default_descriptor
           false example_node).1).2
     = inl ParameterAlreadyDeclaredError.
Proof. repeat split; vm_compute; reflexivity. Qed.

(** ["gain"] has an integer override and is declared with it. *)
Lemma declare_parameter_no_default_by_override_witness :
  declare_parameter_no_default (T := Z) "gain" default_descriptor false
    example_node
  = (declared "gain"
       (mkDeclaration PARAMETER_INTEGER (IntegerValue 7) default_descriptor)
       example_node,
     inr 7).
Proof.
  etrans.
  - apply (declare_parameter_no_default_by_override (T := Z) example_node
             "gain" default_descriptor false).
    vm_compute. reflexivity.
  - vm_compute. reflexivity.
Defined.

(** ["gain"] declared as an integer with default 3 returns the override 7,
    which is the declared value; ["label"] declared as an integer fails on
    its string override. *)
Lemma declare_parameter_checked_conversion_witness :
  declared_value
    <$> parameters_
          (node_parameters_
             (declare_parameter (T := Z) "gain" 3 default_descriptor false
                example_node).1) !! "gain"
  = Some (IntegerValue 7)
  /\ declare_parameter (T := Z) "label" 3 default_descriptor false example_node
     = (declared "label"
          (mkDeclaration PARAMETER_INTEGER (StringValue "hello")
             default_descriptor) example_node,
        inl ParameterTypeMismatchError).
Proof.
  split.
  - refine (proj1 (declare_parameter_checked_conversion (T := Z) example_node
                     "gain" 3 default_descriptor false)
              (declare_parameter (T := Z) "gain" 3 default_descriptor false
                 example_node).1 7 _).
    vm_compute. reflexivity.
  - refine (proj2 (declare_parameter_checked_conversion (T := Z) example_node
                     "label" 3 default_descriptor false) (StringValue "hello")
              _ _ _).
    + vm_compute. reflexivity.
    + vm_compute. reflexivity.
    + reflexivity.
Defined.

(** No parameter of the example node starts with ["camera."]: the caller's
    mapping stays as it is. *)
Lemma get_parameters_failure_keeps_mapping_witness :
  get_parameters example_node "camera" example_values
  = (example_values, inr false).
Proof.
  apply (get_parameters_failure_keeps_mapping (T := Z) example_node "camera"
           example_values ∅).
  vm_compute. reflexivity.
Defined.

(** The parameters under ["sensor"] merged into the caller's mapping:
    ["rate"] is overwritten with the fetched 10, ["other"] is kept. *)
Lemma get_parameters_merges_witness :
  exists params,
    np_get_parameters_by_prefix (node_parameters_ example_node) "sensor" ∅
    = (params, inr true)
    /\ forall key,
         match params !! key with
         | Some p =>
             exists x : Z,
               parameter_value p = to_value x
               /\ <["rate" := 10]> example_values !! key = Some x
         | None => <["rate" := 10]> example_values !! key = example_values !! key
         end.
Proof.
  apply (get_parameters_merges (T := Z) example_node "sensor" example_values
           (<["rate" := 10]> example_values)).
  vm_compute. reflexivity.
Defined.

(** * Further properties of the members *)

(** ** More on the walk over a [std::map] and on [transform] *)

Lemma entries_empty {V} : entries (∅ : gmap string V) = [].
Proof. unfold entries. by rewrite map_to_list_empty. Qed.

(** Two walks in key order over the same entries, with no key twice, are the
    same walk. *)
Lemma sorted_entries_unique {V} (l1 l2 : list (string * V)) :
  StronglySorted key_le l1 -> StronglySorted key_le l2 ->
  NoDup l1.*1 -> l1 ≡ₚ l2 -> l1 = l2.
Proof.
  revert l2. induction l1 as [|x l1 IH]; intros l2 Hs1 Hs2 Hnd Hp.
  - by apply Permutation_nil_l in Hp.
  - destruct l2 as [|y l2]; [by apply Permutation_nil_r in Hp|].
    apply StronglySorted_inv in Hs1 as [Hs1 Hx].
    apply StronglySorted_inv in Hs2 as [Hs2 Hy].
    rewrite fmap_cons in Hnd. apply NoDup_cons in Hnd as [Hx1 Hnd].
    assert (x = y) as ->.
    { assert (x ∈ y :: l2) as Hxin by (rewrite <- Hp; left).
      assert (y ∈ x :: l1) as Hyin by (rewrite Hp; left).
      apply elem_of_cons in Hxin as [?|Hxin]; [done|].
      apply elem_of_cons in Hyin as [?|Hyin]; [done|].
      rewrite Forall_forall in Hx, Hy.
      assert (x.1 = y.1) as Hxy.
      { apply (anti_symm String.le); [by apply Hx | by apply Hy]. }
      destruct Hx1. rewrite Hxy. apply list_elem_of_fmap. by exists y. }
    f_equal. apply IH; [done..|]. by apply Permutation_cons_inv in Hp.
Qed.

(** Mapping the values of a [std::map] does not change the order of the
    walk. *)
Lemma entries_fmap {A B} (f : A -> B) (m : gmap string A) :
  entries (f <$> m) = prod_map id f <$> entries m.
Proof.
  apply sorted_entries_unique.
  - apply entries_sorted.
  - apply (StronglySorted_fmap _ key_le key_le); [|apply entries_sorted].
    by intros [] [].
  - apply NoDup_fst_entries.
  - rewrite !entries_Permutation. by rewrite map_to_list_fmap.
Qed.

Lemma transform_fmap {S A B C} (g : A -> B) (f : B -> M S C) l s :
  transform f (g <$> l) s = transform (fun a => f (g a)) l s.
Proof.
  revert s. induction l as [|a l IH]; intros s; [done|].
  simpl. unfold bind. destruct (f (g a) s) as [s' [e|c]]; [done|].
  by rewrite IH.
Qed.

Section MoreFactoryProperties.
Context `{NI : NodeInterfaces} {NP : Type} `{R : !Rclcpp NP}.

(** X1. When [rclcpp] throws while creating the publisher or the
    subscription, the factory throws the same exception and
    [add_managed_entity] is not reached: the node, and with it the
    registry, is as [rclcpp] left it. *)
Theorem create_throws_registers_nothing :
  (forall topic_name qos options n n1 e,
     rclcpp_create_publisher topic_name qos options n = (n1, inl e) ->
     create_publisher topic_name qos options n = (n1, inl e))
  /\ (forall topic_name qos callback options msg_mem_strat n n1 e,
        rclcpp_create_subscription topic_name qos callback options
          msg_mem_strat n = (n1, inl e) ->
        create_subscription topic_name qos callback options msg_mem_strat n
        = (n1, inl e)).
Proof.
  split.
  - intros topic_name qos options n n1 e Hr.
    unfold create_publisher, bind. by rewrite Hr.
  - intros topic_name qos callback options msg_mem_strat n n1 e Hr.
    unfold create_subscription, bind. by rewrite Hr.
Qed.

(** X2. Creation order is registry order: when the [rclcpp] delegates leave
    the registry alone, a publisher and then a subscription created on a
    node extend its registry by exactly these two entities, in that
    order. *)
Theorem registry_follows_creation_order
    topic1 qos1 options1 topic2 qos2 callback options2 msg_mem_strat
    (n n1 n2 : LifecycleNode NP) pub sub :
  (forall topic_name qos options n0,
     weak_managed_entities_
       (rclcpp_create_publisher topic_name qos options n0).1
     = weak_managed_entities_ n0) ->
  (forall topic_name qos cb options mm n0,
     weak_managed_entities_
       (rclcpp_create_subscription topic_name qos cb options mm n0).1
     = weak_managed_entities_ n0) ->
  create_publisher topic1 qos1 options1 n = (n1, inr pub) ->
  create_subscription topic2 qos2 callback options2 msg_mem_strat n1
  = (n2, inr sub) ->
  weak_managed_entities_ n2 = weak_managed_entities_ n ++ [pub; sub].
Proof.
  intros Hpub Hsub. unfold create_publisher, create_subscription, bind.
  specialize (Hpub topic1 qos1 options1 n).
  destruct (rclcpp_create_publisher topic1 qos1 options1 n) as [m1 [e|p]];
    [done|].
  simpl. intros [= <- <-].
  match goal with
  | |- context [rclcpp_create_subscription ?a ?b ?c ?d ?e ?m] =>
      specialize (Hsub a b c d e m);
      destruct (rclcpp_create_subscription a b c d e m) as [m2 [e'|s]]
  end; [done|].
  simpl. intros [= <- <-]. simpl in *.
  rewrite Hsub. simpl. rewrite Hpub. by rewrite <- app_assoc.
Qed.

End MoreFactoryProperties.

Section MoreDeclareProperties.
Context `{NI : NodeInterfaces} `{NPI : NodeParametersInterface NP}.
Context {T : Type} `{PT : ParameterT T}.

(** A service call followed by the conversion of its result to [T]: the
    state is always the one the call left; the conversion returns [x]
    exactly when the call returned [ParameterValue(x)], and throws either
    what the call threw or, for a value that is not of type [T], the type
    mismatch. *)
Lemma converted_outcomes {S} (m : M S ParameterValue) (s : S) :
  ((v <- m ;; eval (get (T := T) v)) s).1 = (m s).1
  /\ (forall s' x,
        (v <- m ;; eval (get (T := T) v)) s = (s', inr x)
        <-> m s = (s', inr (to_value x)))
  /\ (forall s' e,
        (v <- m ;; eval (get (T := T) v)) s = (s', inl e)
        <-> m s = (s', inl e)
            \/ (e = ParameterTypeMismatchError
                /\ exists v, m s = (s', inr v) /\ get_as (T := T) v = None)).
Proof.
  unfold bind. destruct (m s) as [s1 [e1|v]].
  - split; [done|]. split; [done|]. intros s' e.
    split; [intros [= <- <-]; by left|].
    by intros [[= <- <-]|[_ [v [? _]]]].
  - unfold eval, get. destruct (get_as v) as [y|] eqn:Hy.
    + split; [done|]. split.
      * intros s' x. split.
        -- intros [= <- <-]. by rewrite (get_as_Some _ _ Hy).
        -- intros [= <- ->]. rewrite get_as_to_value in Hy. congruence.
      * intros s' e. split; [done|].
        intros [?|[_ [v' [[= <- <-] Hv']]]]; [done|congruence].
    + split; [done|]. split.
      * intros s' x. split; [done|].
        intros [= <- ->]. rewrite get_as_to_value in Hy. congruence.
      * intros s' e. split.
        -- intros [= <- <-]. right. split; [done|]. by exists v.
        -- intros [?|[-> [v' [[= <- <-] _]]]]; done.
Qed.

(** X4. What [declare_parameter] adds to the declaration of the service is
    the conversion of the result, and nothing else: the node is always as
    the service left it, also when the conversion throws (the declaration
    made is not taken back); the call returns [x] exactly when the service
    returned the value [ParameterValue(x)]; and it throws either what the
    service threw or, when the service returned a value that is not of type
    [T], the type mismatch. *)
Theorem declare_parameter_outcomes (name : string) (default_value : T)
    (parameter_descriptor : ParameterDescriptor) (ignore_override : bool)
    (n : LifecycleNode NP) :
  (declare_parameter name default_value parameter_descriptor ignore_override
     n).1
  = (declare_parameter_value name (to_value default_value)
       parameter_descriptor ignore_override n).1
  /\ (forall n' x,
        declare_parameter name default_value parameter_descriptor
          ignore_override n = (n', inr x)
        <-> declare_parameter_value name (to_value default_value)
              parameter_descriptor ignore_override n
            = (n', inr (to_value x)))
  /\ (forall n' e,
        declare_parameter name default_value parameter_descriptor
          ignore_override n = (n', inl e)
        <-> declare_parameter_value name (to_value default_value)
              parameter_descriptor ignore_override n = (n', inl e)
            \/ (e = ParameterTypeMismatchError
                /\ exists v,
                     declare_parameter_value name (to_value default_value)
                       parameter_descriptor ignore_override n = (n', inr v)
                     /\ get_as (T := T) v = None)).
Proof. apply converted_outcomes. Qed.

(** X9. The overload of [declare_parameter] without a default asks the
    service for a declaration of the type tag of [ParameterT{}], the tag
    every value of type [T] carries, and converts the result: the node is
    always as the service left it, the call returns [x] exactly when the
    service returned [ParameterValue(x)], and it throws what the service
    threw or, for a value not of type [T], the type mismatch. *)
Theorem declare_parameter_no_default_outcomes (name : string)
    (parameter_descriptor : ParameterDescriptor) (ignore_override : bool)
    (n : LifecycleNode NP) :
  (forall x : T, get_type (to_value (value_init : T)) = get_type (to_value x))
  /\ (declare_parameter_no_default (T := T) name parameter_descriptor
        ignore_override n).1
     = (declare_parameter_type name (get_type (to_value (value_init : T)))
          parameter_descriptor ignore_override n).1
  /\ (forall n' (x : T),
        declare_parameter_no_default name parameter_descriptor
          ignore_override n = (n', inr x)
        <-> declare_parameter_type name (get_type (to_value (value_init : T)))
              parameter_descriptor ignore_override n
            = (n', inr (to_value x)))
  /\ (forall n' e,
        declare_parameter_no_default (T := T) name parameter_descriptor
          ignore_override n = (n', inl e)
        <-> declare_parameter_type name (get_type (to_value (value_init : T)))
              parameter_descriptor ignore_override n = (n', inl e)
            \/ (e = ParameterTypeMismatchError
                /\ exists v,
                     declare_parameter_type name
                       (get_type (to_value (value_init : T)))
                       parameter_descriptor ignore_override n = (n', inr v)
                     /\ get_as (T := T) v = None)).
Proof.
  split; [intros x; by rewrite !get_type_to_value|].
  apply converted_outcomes.
Qed.

(** X5. An empty mapping declares nothing: both overloads of
    [declare_parameters] return the empty list and leave the node as it is,
    whatever the namespace and without a call to the service. *)
Theorem declare_parameters_empty_mapping (namespace_ : string)
    (n : LifecycleNode NP) :
  declare_parameters (T := T) namespace_ ∅ n = (n, inr [])
  /\ declare_parameters_with_descriptors (T := T) namespace_ ∅ n = (n, inr []).
Proof.
  unfold declare_parameters, declare_parameters_with_descriptors.
  by rewrite !entries_empty.
Qed.

(** X6. [declare_parameters] is not all-or-nothing. When the entries before
    some entry are declared and the declaration of that entry throws, the
    call throws that exception, the node is the one this last declaration
    left, with the earlier declarations made, and the entries after it are
    not declared; no list is returned. *)
Theorem declare_parameters_stops_at_first_throw (namespace_ : string)
    (parameters : gmap string T) l1 element l2
    (n n1 n2 : LifecycleNode NP) values e :
  entries parameters = l1 ++ element :: l2 ->
  transform
    (fun el : string * T =>
       declare_parameter (normalized_namespace namespace_ +:+ el.1) el.2
         default_descriptor false) l1 n = (n1, inr values) ->
  declare_parameter (normalized_namespace namespace_ +:+ element.1) element.2
    default_descriptor false n1 = (n2, inl e) ->
  declare_parameters namespace_ parameters n = (n2, inl e).
Proof.
  intros Hentries Hbefore Hthrow. unfold declare_parameters.
  rewrite Hentries.
  by apply (transform_throws
              (fun el : string * T =>
                 declare_parameter (normalized_namespace namespace_ +:+ el.1)
                   el.2 default_descriptor false)
              l1 element l2 n n1 values n2 e).
Qed.

(** X7. [declare_parameters] declares the names
    [normalized_namespace + key], paired with the values of the mapping, and
    these names are pairwise different: one call never declares a name
    twice. *)
Theorem declare_parameters_names_distinct (namespace_ : string)
    (parameters : gmap string T) (n : LifecycleNode NP) :
  declare_parameters namespace_ parameters n
  = transform
      (fun named : string * T =>
         declare_parameter named.1 named.2 default_descriptor false)
      ((fun el : string * T =>
          (normalized_namespace namespace_ +:+ el.1, el.2))
         <$> entries parameters) n
  /\ NoDup (((fun el : string * T =>
                (normalized_namespace namespace_ +:+ el.1, el.2))
               <$> entries parameters).*1).
Proof.
  split.
  - unfold declare_parameters. by rewrite transform_fmap.
  - rewrite <- list_fmap_compose.
    rewrite (list_fmap_ext _
               (String.app (normalized_namespace namespace_) ∘ fst)
               (entries parameters)) by done.
    rewrite list_fmap_compose. apply (NoDup_fmap_2 _), NoDup_fst_entries.
Qed.

(** X8. The two overloads of [declare_parameters] agree: giving every value
    the default descriptor and calling the overload that takes descriptors
    is the call of the overload without them. *)
Theorem declare_parameters_overloads_agree (namespace_ : string)
    (parameters : gmap string T) (n : LifecycleNode NP) :
  declare_parameters_with_descriptors namespace_
    ((fun v => (v, default_descriptor)) <$> parameters) n
  = declare_parameters namespace_ parameters n.
Proof.
  unfold declare_parameters_with_descriptors, declare_parameters.
  rewrite entries_fmap, transform_fmap. apply transform_ext.
  by intros [k v] s.
Qed.

End MoreDeclareProperties.

Section MoreGetProperties.
Context `{NI : NodeInterfaces} `{NPI : NodeParametersInterface NP}.
Context {T : Type} `{PT : ParameterT T}.

(** X10. [get_parameter] writes to the caller's variable only when it
    returns.  A call that throws leaves the variable as it was, and throws
    either what the lookup threw or, when the lookup returned with a value
    that is not of type [T] in the parameter, the type mismatch; a call that
    returns has the answer of the lookup and the variable holds the
    conversion of the value the lookup left in the parameter. *)
Theorem get_parameter_writes_on_return_only (n : LifecycleNode NP)
    (name : string) (parameter parameter' : T) :
  (forall e,
     get_parameter n name parameter = (parameter', inl e) ->
     parameter' = parameter
     /\ ((exists p,
            get_parameter_value n name
              (mkParameter name (to_value parameter)) = (p, inl e))
         \/ (e = ParameterTypeMismatchError
             /\ exists p result,
                  get_parameter_value n name
                    (mkParameter name (to_value parameter))
                  = (p, inr result)
                  /\ get_as (T := T) (parameter_value p) = None)))
  /\ (forall result,
        get_parameter n name parameter = (parameter', inr result) ->
        exists p,
          get_parameter_value n name (mkParameter name (to_value parameter))
          = (p, inr result)
          /\ parameter_value p = to_value parameter').
Proof.
  unfold get_parameter.
  destruct (get_parameter_value n name
              (mkParameter name (to_value parameter))) as [p [e1|result1]].
  - split; [|done]. intros e [= <- <-]. split; [done|]. left. by exists p.
  - unfold get_value, get.
    destruct (get_as (parameter_value p)) as [x|] eqn:Hx.
    + split; [done|]. intros result [= <- <-]. exists p.
      split; [done|]. by apply get_as_Some.
    + split; [|done]. intros e [= <- <-]. split; [done|]. right.
      split; [done|]. by exists p, result1.
Qed.

(** X11. [get_parameter_or] relative to [get_parameter], for any parameter
    service: a call that throws is a call of [get_parameter] that throws,
    and the variable is as it was, the alternative is not assigned; a call
    that returns [false] leaves the alternative in the variable, whatever
    [get_parameter] wrote there; a call that returns [true] leaves what
    [get_parameter] wrote. *)
Theorem get_parameter_or_outcomes (n : LifecycleNode NP) (name : string)
    (alternative_value value value' : T) :
  (forall e,
     get_parameter_or n name alternative_value value = (value', inl e) ->
     value' = value /\ get_parameter n name value = (value, inl e))
  /\ (get_parameter_or n name alternative_value value = (value', inr false) ->
      value' = alternative_value
      /\ exists written, get_parameter n name value = (written, inr false))
  /\ (get_parameter_or n name alternative_value value = (value', inr true) ->
      get_parameter n name value = (value', inr true)).
Proof.
  rewrite get_parameter_or_unfold.
  destruct (get_parameter n name value) as [w [e1|[]]] eqn:Hget.
  - split; [|done]. intros e [= <- <-].
    enough (w = value) as -> by done.
    unfold get_parameter in Hget.
    destruct (get_parameter_value n name (mkParameter name (to_value value)))
      as [p [e2|r]]; [by injection Hget|].
    destruct (get_value p); [by injection Hget|done].
  - split; [done|]. split; [done|]. by intros [= <-].
  - split; [done|]. split; [|done]. intros [= <-]. split; [done|].
    by exists w.
Qed.

(** The loop of [get_parameters] on any outcome: it creates or overwrites
    entries, it removes none, and it leaves alone every key that is not in
    the list. *)
Lemma assign_values_frame (params : list (string * RclcppParameter))
    (values values' : gmap string T) r :
  assign_values params values = (values', r) ->
  (forall key, is_Some (values !! key) -> is_Some (values' !! key))
  /\ (forall key, key ∉ params.*1 -> values' !! key = values !! key).
Proof.
  revert values. induction params as [|[k p] params IH]; intros values.
  - simpl. unfold ret. by intros [= <- _].
  - simpl. unfold bind at 1, eval, get_value, get.
    destruct (get_as (parameter_value p)) as [x|]; [|by intros [= <- _]].
    unfold bind at 1. intros Hrest. destruct (IH _ Hrest) as [Hsome Hout].
    split.
    + intros key Hkey. apply Hsome. rewrite lookup_insert_is_Some.
      destruct (decide (k = key)); auto.
    + intros key [Hne Hkey]%not_elem_of_cons.
      rewrite (Hout _ Hkey). by apply lookup_insert_ne.
Qed.

(** The loop on a map that already holds the values: nothing changes. *)
Lemma assign_values_again (params : list (string * RclcppParameter))
    (values : gmap string T) :
  (forall key p, (key, p) ∈ params ->
     exists x, parameter_value p = to_value x /\ values !! key = Some x) ->
  assign_values params values = (values, inr tt).
Proof.
  induction params as [|[k p] params IH]; intros Hheld; [done|].
  destruct (Hheld k p) as [x [Hp Hk]]; [by left|].
  simpl. unfold bind at 1, eval, get_value, get.
  rewrite Hp, get_as_to_value. unfold bind at 1.
  rewrite (insert_id _ _ _ Hk). apply IH.
  intros key q Hq. apply Hheld. by right.
Qed.

(** The loop up to the first parameter that is not of type [T]: the ones
    before it are assigned, then the conversion throws. *)
Lemma assign_values_throws (l1 l2 : list (string * RclcppParameter)) k p
    (values : gmap string T) :
  Forall (fun e => is_Some (get_as (T := T) (parameter_value e.2))) l1 ->
  get_as (T := T) (parameter_value p) = None ->
  exists values',
    assign_values (l1 ++ (k, p) :: l2) values
    = (values', inl ParameterTypeMismatchError)
    /\ assign_values l1 values = (values', inr tt).
Proof.
  intros Hl1 Hp. revert values.
  induction Hl1 as [|[k1 p1] l1 [x Hx] _ IH]; intros values.
  - exists values. simpl. unfold bind at 1, eval, get_value, get.
    by rewrite Hp.
  - destruct (IH (<[k1 := x]> values)) as [values' [Hthrow Hbefore]].
    exists values'. simpl in *.
    unfold bind, eval, get_value, get in *. by rewrite Hx.
Qed.

(** X12. [get_parameters] never removes an entry of the caller's mapping and
    never touches a key that is not among the fetched suffixes, whether it
    returns or throws. *)
Theorem get_parameters_keeps_other_entries (n : LifecycleNode NP)
    (prefix : string) (values values' : gmap string T) r :
  get_parameters n prefix values = (values', r) ->
  (forall key, is_Some (values !! key) -> is_Some (values' !! key))
  /\ (forall params r0 key,
        np_get_parameters_by_prefix (node_parameters_ n) prefix ∅
        = (params, r0) ->
        params !! key = None -> values' !! key = values !! key).
Proof.
  unfold get_parameters.
  destruct (np_get_parameters_by_prefix (node_parameters_ n) prefix ∅)
    as [params [e|result]].
  - by intros [= <- _].
  - unfold bind at 1. destruct result; [|by intros [= <- _]].
    destruct (assign_values (entries params) values) as [vs r1] eqn:Hloop.
    apply assign_values_frame in Hloop as [Hsome Hout].
    intros Hvs. assert (vs = values') as ->.
    { destruct r1 as [e|[]]; by injection Hvs. }
    split; [done|]. intros params0 r0 key [= <- _] Hkey.
    apply Hout. by apply not_elem_of_fst_entries.
Qed.

(** X13. [get_parameters] is not all-or-nothing. When the lookup succeeds
    and, in key order, the fetched parameters before some parameter are of
    type [T] and that one is not, the call throws the type mismatch and the
    caller's mapping has been written up to there: the suffixes before it
    hold the fetched values, every other key is as it was. *)
Theorem get_parameters_stops_at_first_mismatch (n : LifecycleNode NP)
    (prefix : string) (values : gmap string T) params l1 k p l2 :
  np_get_parameters_by_prefix (node_parameters_ n) prefix ∅
  = (params, inr true) ->
  entries params = l1 ++ (k, p) :: l2 ->
  Forall (fun e => is_Some (get_as (T := T) (parameter_value e.2))) l1 ->
  get_as (T := T) (parameter_value p) = None ->
  exists values',
    get_parameters n prefix values
    = (values', inl ParameterTypeMismatchError)
    /\ (forall key q, (key, q) ∈ l1 ->
          exists x, parameter_value q = to_value x /\ values' !! key = Some x)
    /\ (forall key, key ∉ l1.*1 -> values' !! key = values !! key).
Proof.
  intros Hlookup Hentries Hl1 Hp. unfold get_parameters.
  rewrite Hlookup, Hentries. unfold bind at 1.
  destruct (assign_values_throws l1 l2 k p values Hl1 Hp)
    as [values' [Hthrow Hbefore]].
  exists values'. rewrite Hthrow. split; [done|].
  apply assign_values_lookup in Hbefore; [done|].
  pose proof (NoDup_fst_entries params) as Hnd.
  rewrite Hentries, fmap_app in Hnd. by apply NoDup_app in Hnd as [? _].
Qed.

(** X14. A call of [get_parameters] that returns can be repeated: on the
    mapping it has produced, the same call returns the same boolean and
    changes nothing. *)
Theorem get_parameters_idempotent (n : LifecycleNode NP) (prefix : string)
    (values values' : gmap string T) result :
  get_parameters n prefix values = (values', inr result) ->
  get_parameters n prefix values' = (values', inr result).
Proof.
  unfold get_parameters.
  destruct (np_get_parameters_by_prefix (node_parameters_ n) prefix ∅)
    as [params [e|result1]]; [done|].
  destruct result1; [|by intros [= <- <-]].
  intros Hfirst. unfold bind, ret in Hfirst |- *.
  destruct (assign_values (entries params) values) as [vs [e|[]]] eqn:Hloop;
    [done|].
  injection Hfirst as <- <-.
  apply assign_values_lookup in Hloop as [Hin _]; [|apply NoDup_fst_entries].
  by rewrite (assign_values_again _ _ Hin).
Qed.

End MoreGetProperties.

(** ** The further properties on the example node *)

(** An empty topic name is refused by the stand-in middleware: nothing is
    registered. *)
Lemma create_throws_registers_nothing_witness :
  create_publisher "" 10%nat tt example_node
  = (example_node, inl EntityCreationError)
  /\ create_subscription "" 10%nat tt tt tt example_node
     = (example_node, inl EntityCreationError).
Proof.
  split.
  - apply (proj1 (create_throws_registers_nothing (R := stub_rclcpp))
             "" 10%nat tt example_node).
    reflexivity.
  - apply (proj2 (create_throws_registers_nothing (R := stub_rclcpp))
             "" 10%nat tt tt tt example_node).
    reflexivity.
Defined.

(** A publisher and then a subscription on the example node: the registry
    holds the two, in that order. *)
Lemma registry_follows_creation_order_witness :
  weak_managed_entities_
    (create_subscription "scan" 5%nat tt tt tt
       (create_publisher "chatter" 10%nat tt example_node).1).1
  = weak_managed_entities_ example_node ++ [0%nat; 1%nat].
Proof.
  refine (registry_follows_creation_order (R := stub_rclcpp)
            "chatter" 10%nat tt "scan" 5%nat tt tt tt
            example_node (create_publisher "chatter" 10%nat tt example_node).1
            _ 0%nat 1%nat _ _ _ _).
  - intros topic_name qos options n0. simpl.
    unfold Stub.create_on_node, on_member.
    by destruct (Stub.create_endpoint topic_name (node_topics_ n0)).
  - intros topic_name qos cb options mm n0. simpl.
    unfold Stub.create_on_node, on_member.
    by destruct (Stub.create_endpoint topic_name (node_topics_ n0)).
  - reflexivity.
  - reflexivity.
Defined.

(** ["gain"] declared with default 3: the call returns 7 because the
    service returned the integer 7. *)
Lemma declare_parameter_outcomes_witness :
  declare_parameter_value "gain" (IntegerValue 3) default_descriptor false
    example_node
  = (declared "gain"
       (mkDeclaration PARAMETER_INTEGER (IntegerValue 7) default_descriptor)
       example_node,
     inr (IntegerValue 7)).
Proof.
  refine (proj1 (proj1 (proj2 (declare_parameter_outcomes (T := Z) "gain" 3
                                 default_descriptor false example_node))
                   _ 7) _).
  vm_compute. reflexivity.
Defined.

(** The same without a default. *)
Lemma declare_parameter_no_default_outcomes_witness :
  declare_parameter_type "gain" PARAMETER_INTEGER default_descriptor false
    example_node
  = (declared "gain"
       (mkDeclaration PARAMETER_INTEGER (IntegerValue 7) default_descriptor)
       example_node,
     inr (IntegerValue 7)).
Proof.
  refine (proj1 (proj1 (proj2 (proj2 (declare_parameter_no_default_outcomes
                                        (T := Z) "gain" default_descriptor
                                        false example_node)))
                   _ 7) _).
  vm_compute. reflexivity.
Defined.

(** ["sensor.rate"] is declared already: under the namespace ["sensor"] the
    example mapping gets ["sensor.enabled"] declared, then the call
    throws. *)
Lemma declare_parameters_stops_at_first_throw_witness :
  declare_parameters "sensor" example_mapping example_node
  = (declared "sensor.enabled"
       (mkDeclaration PARAMETER_INTEGER (IntegerValue 1) default_descriptor)
       example_node,
     inl ParameterAlreadyDeclaredError).
Proof.
  refine (declare_parameters_stops_at_first_throw (T := Z) "sensor"
            example_mapping [("enabled", 1)] ("rate", 10) [] example_node
            (declared "sensor.enabled"
               (mkDeclaration PARAMETER_INTEGER (IntegerValue 1)
                  default_descriptor) example_node)
            _ [1] ParameterAlreadyDeclaredError _ _ _).
  - vm_compute. reflexivity.
  - vm_compute. reflexivity.
  - vm_compute. reflexivity.
Defined.

(** ["mode"] read as an integer: the call throws the type mismatch and the
    variable keeps the 0 it held. *)
Lemma get_parameter_writes_on_return_only_witness :
  (0 : Z) = 0
  /\ ((exists p,
         get_parameter_value example_node "mode"
           (mkParameter "mode" (to_value (0 : Z)))
         = (p, inl ParameterTypeMismatchError))
      \/ (ParameterTypeMismatchError = ParameterTypeMismatchError
          /\ exists p result,
               get_parameter_value example_node "mode"
                 (mkParameter "mode" (to_value (0 : Z))) = (p, inr result)
               /\ get_as (T := Z) (parameter_value p) = None)).
Proof.
  apply (proj1 (get_parameter_writes_on_return_only (T := Z) example_node
                  "mode" 0 0) ParameterTypeMismatchError).
  vm_compute. reflexivity.
Defined.

(** ["absent"] is not declared: the variable gets the alternative 99. *)
Lemma get_parameter_or_outcomes_witness :
  (99 : Z) = 99
  /\ exists written,
       get_parameter (T := Z) example_node "absent" 0 = (written, inr false).
Proof.
  apply (proj1 (proj2 (get_parameter_or_outcomes (T := Z) example_node
                         "absent" 99 0 99))).
  vm_compute. reflexivity.
Defined.

(** The parameters under ["sensor"] fetched into the example mapping: its
    entries stay, and a key that was not fetched is as before. *)
Lemma get_parameters_keeps_other_entries_witness :
  (forall key,
     is_Some (example_values !! key) ->
     is_Some (<["rate" := 10]> example_values !! key))
  /\ (forall params r0 key,
        np_get_parameters_by_prefix (node_parameters_ example_node) "sensor" ∅
        = (params, r0) ->
        params !! key = None ->
        <["rate" := 10]> example_values !! key = example_values !! key).
Proof.
  apply (get_parameters_keeps_other_entries (T := Z) example_node "sensor"
           example_values (<["rate" := 10]> example_values) (inr true)).
  vm_compute. reflexivity.
Defined.

(** All parameters of the example node fetched as strings: ["mode"] is
    written, then the integer ["sensor.rate"] makes the call throw. *)
Lemma get_parameters_stops_at_first_mismatch_witness :
  exists values' : gmap string string,
    get_parameters example_node "" ∅
    = (values', inl ParameterTypeMismatchError)
    /\ (forall key q,
          (key, q) ∈ [("mode", mkParameter "mode" (StringValue "fast"))] ->
          exists x, parameter_value q = to_value x /\ values' !! key = Some x)
    /\ (forall key,
          key ∉ [("mode", mkParameter "mode" (StringValue "fast"))].*1 ->
          values' !! key = (∅ : gmap string string) !! key).
Proof.
  refine (get_parameters_stops_at_first_mismatch (T := string) example_node
            "" ∅
            (<["mode" := mkParameter "mode" (StringValue "fast")]>
               (<["sensor.rate" := mkParameter "sensor.rate" (IntegerValue 10)]>
                  ∅))
            [("mode", mkParameter "mode" (StringValue "fast"))]
            "sensor.rate" (mkParameter "sensor.rate" (IntegerValue 10)) []
            _ _ _ _).
  - vm_compute. reflexivity.
  - vm_compute. reflexivity.
  - repeat constructor. by eexists.
  - reflexivity.
Defined.

(** The call on the mapping it has produced changes nothing. *)
Lemma get_parameters_idempotent_witness :
  get_parameters example_node "sensor" (<["rate" := 10]> example_values)
  = (<["rate" := 10]> example_values, inr true).
Proof.
  apply (get_parameters_idempotent (T := Z) example_node "sensor"
           example_values).
  vm_compute. reflexivity.
Defined.
